(** * fun-with-middleware: the request pipeline of [index.js]

    [index.js] builds an express application with two GET routes, defines a
    custom middleware function that it never attaches, and listens on a
    fixed port.  The JavaScript functions of the file are embedded as
    computations in a small state-and-exception monad over the observable
    world of one process (standard output, standard error, the response of
    the request being served).  The express router, which is not part of
    the repository, is modelled from the pipeline contract of the
    specification; so are the parts of express behind [res.send] (the
    entity tag and the freshness check of a conditional request), which
    follow the packages express 4 uses for them. *)

From Stdlib Require Import String Ascii List Bool Arith NArith Lia.
Import ListNotations.
Local Open Scope string_scope.

(** ** The entity tag of a response body

    Modelled from the spec: the default (weak) entity tag express puts on
    the responses of [res.send]; it comes from the etag package and node's
    crypto module, neither of which is in the repository.  The tag is
    [W/], a quote, the length in hexadecimal, a dash, the first 27
    characters of the base64 SHA-1 of the body, and a quote. *)

Module Sha1.

Definition mask32 (x : N) : N := N.land x 0xFFFFFFFF.

Definition add32 (x y : N) : N := mask32 (x + y).

Definition rotl (n x : N) : N :=
  mask32 (N.lor (N.shiftl x n) (N.shiftr x (32 - n))).

Definition bytes_of (s : string) : list N :=
  map N_of_ascii (list_ascii_of_string s).

(** Big-endian bytes of the low [8 * k] bits of [x]. *)
Fixpoint be_bytes (k : nat) (x : N) : list N :=
  match k with
  | O => []
  | S k' => N.land (N.shiftr x (8 * N.of_nat k')) 0xFF :: be_bytes k' x
  end.

Definition be_word (bs : list N) : N :=
  fold_left (fun acc b => N.lor (N.shiftl acc 8) b) bs 0%N.

(** The message followed by the bit 1, zeros, and its length in bits on 64
    bits: a multiple of 64 bytes. *)
Definition pad (msg : list N) : list N :=
  let l := length msg in
  msg ++ [0x80%N] ++ repeat 0%N ((119 - l mod 64) mod 64)
      ++ be_bytes 8 (8 * N.of_nat l).

Fixpoint chunks {A} (size fuel : nat) (l : list A) : list (list A) :=
  match fuel, l with
  | O, _ | _, [] => []
  | S fuel', _ => firstn size l :: chunks size fuel' (skipn size l)
  end.

(** The 80 words of the message schedule, latest first. *)
Fixpoint schedule (n : nat) (ws : list N) : list N :=
  match n with
  | O => ws
  | S n' =>
      schedule n'
        (rotl 1 (N.lxor (N.lxor (nth 2 ws 0%N) (nth 7 ws 0%N))
                        (N.lxor (nth 13 ws 0%N) (nth 15 ws 0%N))) :: ws)
  end.

Definition state : Type := N * N * N * N * N.

Definition round (i : nat) (st : state) (wi : N) : state :=
  let '(a, b, c, d, e) := st in
  let '(f, k) :=
    if Nat.ltb i 20 then
      (N.lor (N.land b c) (N.land (N.lxor b 0xFFFFFFFF) d), 0x5A827999%N)
    else if Nat.ltb i 40 then (N.lxor (N.lxor b c) d, 0x6ED9EBA1%N)
    else if Nat.ltb i 60 then
      (N.lor (N.lor (N.land b c) (N.land b d)) (N.land c d), 0x8F1BBCDC%N)
    else (N.lxor (N.lxor b c) d, 0xCA62C1D6%N) in
  (add32 (add32 (add32 (add32 (rotl 5 a) f) e) k) wi, a, rotl 30 b, c, d).

Fixpoint rounds (i : nat) (ws : list N) (st : state) : state :=
  match ws with
  | [] => st
  | wi :: ws' => rounds (S i) ws' (round i st wi)
  end.

Definition block (h : state) (bytes : list N) : state :=
  let ws := rev (schedule 64 (rev (map be_word (chunks 4 16 bytes)))) in
  let '(a, b, c, d, e) := rounds 0 ws h in
  let '(h0, h1, h2, h3, h4) := h in
  (add32 h0 a, add32 h1 b, add32 h2 c, add32 h3 d, add32 h4 e).

Definition initial : state :=
  (0x67452301, 0xEFCDAB89, 0x98BADCFE, 0x10325476, 0xC3D2E1F0)%N.

(** Modelled from the spec: SHA-1 (FIPS 180) as node's crypto module
    computes it for the etag package; the 20 bytes of the digest. *)
Definition digest (s : string) : list N :=
  let padded := pad (bytes_of s) in
  let '(h0, h1, h2, h3, h4) :=
    fold_left block (chunks 64 (length padded) padded) initial in
  be_bytes 4 h0 ++ be_bytes 4 h1 ++ be_bytes 4 h2 ++ be_bytes 4 h3
    ++ be_bytes 4 h4.

End Sha1.

Definition base64_alphabet : string :=
  "ABCDEFGHIJKLMNOPQRSTUVWXYZabcdefghijklmnopqrstuvwxyz0123456789+/".

Definition base64_char (n : N) : string :=
  match String.get (N.to_nat n) base64_alphabet with
  | Some c => String c EmptyString
  | None => ""
  end.

(** Modelled from the spec: [digest('base64')] of node's crypto module,
    base64 with [=] padding. *)
Fixpoint base64 (bytes : list N) : string :=
  match bytes with
  | [] => ""
  | [a] =>
      base64_char (N.shiftr a 2)
        ++ base64_char (N.shiftl (N.land a 3) 4) ++ "=="
  | [a; b] =>
      base64_char (N.shiftr a 2)
        ++ base64_char (N.lor (N.shiftl (N.land a 3) 4) (N.shiftr b 4))
        ++ base64_char (N.shiftl (N.land b 15) 2) ++ "="
  | a :: b :: c :: rest =>
      base64_char (N.shiftr a 2)
        ++ base64_char (N.lor (N.shiftl (N.land a 3) 4) (N.shiftr b 4))
        ++ base64_char (N.lor (N.shiftl (N.land b 15) 2) (N.shiftr c 6))
        ++ base64_char (N.land c 63)
        ++ base64 rest
  end.

Definition hex_digit (n : nat) : string :=
  match String.get n "0123456789abcdef" with
  | Some c => String c EmptyString
  | None => ""
  end.

(** [n.toString(16)] *)
Fixpoint hex_fuel (fuel n : nat) : string :=
  match fuel with
  | O => ""
  | S fuel' =>
      if Nat.ltb n 16 then hex_digit n
      else hex_fuel fuel' (n / 16) ++ hex_digit (n mod 16)
  end.

Definition hex (n : nat) : string := hex_fuel (S n) n.

Definition quote : string := String (ascii_of_nat 34) EmptyString.

(** Modelled from the spec: the weak entity tag of the etag package, as
    express computes it for a body sent by [res.send]. *)
Definition wetag (b : string) : string :=
  "W/" ++ quote ++ hex (String.length b) ++ "-"
       ++ String.substring 0 27 (base64 (Sha1.digest b)) ++ quote.

(** ** The JavaScript runtime as seen by [index.js] *)

Module JS.

(** HTTP request methods. *)
Inductive http_method := GET | HEAD | POST | PUT | DELETE | PATCH | OPTIONS.

Definition method_eqb (a b : http_method) : bool :=
  match a, b with
  | GET, GET | HEAD, HEAD | POST, POST | PUT, PUT
  | DELETE, DELETE | PATCH, PATCH | OPTIONS, OPTIONS => true
  | _, _ => false
  end.

Definition method_name (m : http_method) : string :=
  match m with
  | GET => "GET" | HEAD => "HEAD" | POST => "POST" | PUT => "PUT"
  | DELETE => "DELETE" | PATCH => "PATCH" | OPTIONS => "OPTIONS"
  end.

(** The request context handed to every handler unit. *)
Record request := mkRequest {
  method : http_method;
  path : string;
  query : string;
  headers : list (string * string);
  payload : string
}.

(** The response sink: node creates it with status code 200 and nothing
    sent; it is written at most once. *)
Record response := mkResponse {
  statusCode : nat;
  headersSent : bool;
  body : option string
}.

Definition fresh_response : response :=
  {| statusCode := 200; headersSent := false; body := None |}.

(** Position of a handler unit in the pipeline of one request; the
    dispatcher records the units it invokes under these names. *)
Inductive slot :=
| GlobalUnit (i : nat)
| RouteUnit (m : http_method) (p : string) (i : nat)
| Terminal (m : http_method) (p : string).

(** The observable world.  [out] and [err] are the lines written to the
    console, [sink] is the response of the request in flight.  [invoked]
    and [nexts] are instrumentation: the units the dispatcher has started
    and the number of continuation calls made, for the current request. *)
Record world := mkWorld {
  out : list string;
  err : list string;
  sink : response;
  invoked : list slot;
  nexts : nat
}.

Definition boot : world :=
  {| out := []; err := []; sink := fresh_response; invoked := []; nexts := 0 |}.

(** A completed call either returns a value or throws. *)
Inductive completion (A : Type) :=
| Ok (a : A)
| Exn (e : string).
Arguments Ok {A} a.
Arguments Exn {A} e.

(** Computations: effects on the world persist when the call throws. *)
Definition M (A : Type) : Type := world -> completion A * world.

Definition ret {A} (a : A) : M A := fun w => (Ok a, w).

Definition bind {A B} (c : M A) (k : A -> M B) : M B :=
  fun w => match c w with
           | (Ok a, w') => k a w'
           | (Exn e, w') => (Exn e, w')
           end.

Definition throw {A} (e : string) : M A := fun w => (Exn e, w).

(** [try { c } catch (e) { h e }] *)
Definition try_catch {A} (c : M A) (h : string -> M A) : M A :=
  fun w => match c w with
           | (Ok a, w') => (Ok a, w')
           | (Exn e, w') => h e w'
           end.

(** JavaScript values that reach the functions of [index.js]; a response
    object knows the request it answers ([res.req]). *)
Inductive value :=
| undefined
| str (s : string)
| req_obj (r : request)
| res_obj (r : request).

(** [console.log(line)] *)
Definition console_log (line : string) : M unit :=
  fun w => (Ok tt, {| out := out w ++ [line]; err := err w; sink := sink w;
                      invoked := invoked w; nexts := nexts w |}).

(** [console.error(line)] *)
Definition console_error (line : string) : M unit :=
  fun w => (Ok tt, {| out := out w; err := err w ++ [line]; sink := sink w;
                      invoked := invoked w; nexts := nexts w |}).

Definition set_sink (r : response) (w : world) : world :=
  {| out := out w; err := err w; sink := r;
     invoked := invoked w; nexts := nexts w |}.

(** Writing a complete response with the given status, once. *)
Definition write_response (status : nat) (b : string) : M unit :=
  fun w => if headersSent (sink w)
           then (Exn "ERR_HTTP_HEADERS_SENT", w)
           else (Ok tt, set_sink {| statusCode := status; headersSent := true;
                                    body := Some b |} w).

(** *** Conditional requests *)

Definition lower_ascii (c : ascii) : ascii :=
  let n := nat_of_ascii c in
  if Nat.leb 65 n && Nat.leb n 90 then ascii_of_nat (n + 32) else c.

Fixpoint lower (s : string) : string :=
  match s with
  | EmptyString => EmptyString
  | String c rest => String (lower_ascii c) (lower rest)
  end.

(** Modelled from the spec: [req.headers] of node (not in the
    repository); the values of the header [name], given in lower case, as
    node names the headers whatever their case on the wire. *)
Definition header_values (r : request) (name : string) : list string :=
  map snd (filter (fun kv => String.eqb (lower (fst kv)) name) (headers r)).

(** Node keeps the first value of a header such as If-Modified-Since ... *)
Definition header_first (r : request) (name : string) : string :=
  match header_values r name with
  | v :: _ => v
  | [] => ""
  end.

(** ... and joins the values of the others; an absent header reads as the
    empty string, which JavaScript takes for false like [undefined]. *)
Definition header_joined (r : request) (name : string) : string :=
  String.concat ", " (header_values r name).

Definition is_empty (s : string) : bool :=
  match s with EmptyString => true | _ => false end.

Fixpoint split_on (sep : ascii) (acc : list ascii) (s : list ascii)
    : list (list ascii) :=
  match s with
  | [] => [rev acc]
  | c :: rest =>
      if Ascii.eqb c sep then rev acc :: split_on sep [] rest
      else split_on sep (c :: acc) rest
  end.

Fixpoint drop_while (p : ascii -> bool) (s : list ascii) : list ascii :=
  match s with
  | [] => []
  | c :: rest => if p c then drop_while p rest else s
  end.

Definition trim (p : ascii -> bool) (s : list ascii) : list ascii :=
  rev (drop_while p (rev (drop_while p s))).

(** Modelled from the spec: the token list of the fresh package; the
    pieces of [s] between commas, each without the characters of [p] at
    its ends. *)
Definition tokens (p : ascii -> bool) (s : string) : list string :=
  map (fun piece => string_of_list_ascii (trim p piece))
      (split_on "," [] (list_ascii_of_string s)).

Definition is_space (c : ascii) : bool := Ascii.eqb c " ".

(** The white space of a regular expression among the 256 characters a
    header can hold. *)
Definition is_whitespace (c : ascii) : bool :=
  let n := nat_of_ascii c in
  (Nat.leb 9 n && Nat.leb n 13) || Nat.eqb n 32 || Nat.eqb n 160.

(** Modelled from the spec: [fresh(reqHeaders, resHeaders)] of the fresh
    package (0.5.2, the one express 4 uses; not in the repository), for a
    response that carries the entity tag [etag] and no Last-Modified
    header, as the responses of [res.send] do. *)
Definition fresh_headers (r : request) (etag : string) : bool :=
  let modifiedSince := header_first r "if-modified-since" in
  let noneMatch := header_joined r "if-none-match" in
  if is_empty modifiedSince && is_empty noneMatch then false
  else if existsb (String.eqb "no-cache")
            (tokens is_whitespace (header_joined r "cache-control")) then false
  else if negb (is_empty noneMatch) && negb (String.eqb noneMatch "*")
          && negb (existsb (fun m => String.eqb m etag
                                     || String.eqb m ("W/" ++ etag)
                                     || String.eqb ("W/" ++ m) etag)
                           (tokens is_space noneMatch)) then false
  else is_empty modifiedSince.

(** Modelled from the spec: [req.fresh] of the express library (not in
    the repository): only a GET or HEAD request about to be answered 2xx
    or 304 can be fresh. *)
Definition fresh (r : request) (status : nat) (etag : string) : bool :=
  match method r with
  | GET | HEAD =>
      if (Nat.leb 200 status && Nat.ltb status 300) || Nat.eqb status 304
      then fresh_headers r etag
      else false
  | _ => false
  end.

(** A request without validators: no If-None-Match and no
    If-Modified-Since header. *)
Definition unconditional (r : request) : bool :=
  is_empty (header_first r "if-modified-since")
  && is_empty (header_joined r "if-none-match").

(** Modelled from the spec: the response [res.send(b)] of the express
    library writes for request [r] when the status code is [status]: 304
    for a fresh request; no body with 204 and 304, nor for HEAD. *)
Definition sent (r : request) (status : nat) (b : string) : response :=
  let status := if fresh r status (wetag b) then 304 else status in
  {| statusCode := status;
     headersSent := true;
     body := Some (if Nat.eqb status 204 || Nat.eqb status 304 then ""
                   else match method r with HEAD => "" | _ => b end) |}.

(** Modelled from the spec: [res.send(b)] of the express library (not in
    the repository), the write-once response sink of the pipeline: it
    sends [b] with the status code the response carries (200 unless
    changed), after the freshness check express makes on the request (the
    README shows its effect in the log line [GET /hi 304]); it throws on a
    response already sent; a receiver that is not a response object has no
    [send] to call. *)
Definition res_send (res : value) (b : string) : M unit :=
  match res with
  | res_obj r =>
      fun w => if headersSent (sink w)
               then (Exn "ERR_HTTP_HEADERS_SENT", w)
               else (Ok tt, set_sink (sent r (statusCode (sink w)) b) w)
  | _ => throw "TypeError: res.send is not a function"
  end.

Arguments wetag : simpl never.
Arguments sent : simpl never.

(** Substring test, used to inspect console lines. *)
Fixpoint contains (needle hay : string) : bool :=
  if String.prefix needle hay then true
  else match hay with
       | EmptyString => false
       | String _ rest => contains needle rest
       end.

End JS.

Import JS.

Declare Scope js_scope.
Delimit Scope js_scope with js.
Notation "c1 ;; c2" := (bind c1 (fun _ => c2))
  (at level 61, right associativity) : js_scope.
Notation "x <- c1 ;; c2" := (bind c1 (fun x => c2))
  (at level 61, c1 at next level, right associativity) : js_scope.
Local Open Scope js_scope.

(** ** The express pipeline *)

Module Express.

(** A handler unit as the router sees it: it receives the request
    context and its continuation; the response sink is the one of the
    world. *)
Definition handler : Type := request -> M unit -> M unit.

(** A JavaScript function declared with the two parameters [(req, res)]:
    express calls it with [(req, res, next)] and the third argument is
    dropped by the call, so the function has no way to reach [next]. *)
Definition arity2 (f : value -> value -> M value) : handler :=
  fun r _ => _ <- f (req_obj r) (res_obj r) ;; ret tt.

Record route := mkRoute {
  rmethod : http_method;
  rpath : string;
  runits : list handler;
  rterminal : handler
}.

Record application := mkApp {
  globals : list handler;
  routes : list route
}.

(** Modelled from the spec: [express()], the application object of the
    express library (not in the repository), starts with no global unit
    and no route. *)
Definition express : application := {| globals := []; routes := [] |}.

(** Modelled from the spec: [app.use(h)] of the express library,
    "Register global unit: appends a handler unit to the application-wide
    list". *)
Definition use (a : application) (h : handler) : application :=
  {| globals := globals a ++ [h]; routes := routes a |}.

(** Modelled from the spec: [app.get(path, ...units, terminal)] of the
    express library, "Register route: binds a path + method to an ordered
    list of zero or more handler units plus one terminal handler". *)
Definition get (a : application) (p : string) (units : list handler)
    (terminal : handler) : application :=
  {| globals := globals a;
     routes := routes a ++ [mkRoute GET p units terminal] |}.

(** Modelled from the spec: route lookup of the express library; a route
    is bound to a path and a method, and a request is matched on both. *)
Definition matches (req : request) (rt : route) : bool :=
  method_eqb (method req) (rmethod rt) && String.eqb (path req) (rpath rt).

Definition tag {A} (f : nat -> slot) (l : list A) : list (slot * A) :=
  combine (map f (seq 0 (length l))) l.

Definition route_sequence (rt : route) : list (slot * handler) :=
  tag (RouteUnit (rmethod rt) (rpath rt)) (runits rt)
    ++ [(Terminal (rmethod rt) (rpath rt), rterminal rt)].

(** Modelled from the spec: the effective sequence of the express
    dispatcher, "global units ++ route-specific units ++ terminal
    handler", each unit named by its position. *)
Definition effective (a : application) (req : request)
    : list (slot * handler) :=
  tag GlobalUnit (globals a)
    ++ match find (matches req) (routes a) with
       | Some rt => route_sequence rt
       | None => []
       end.

(** Instrumentation: the dispatcher notes the unit it starts ... *)
Definition mark (s : slot) (w : world) : world :=
  {| out := out w; err := err w; sink := sink w;
     invoked := invoked w ++ [s]; nexts := nexts w |}.

(** ... and every call of the continuation it handed out. *)
Definition bump (w : world) : world :=
  {| out := out w; err := err w; sink := sink w;
     invoked := invoked w; nexts := S (nexts w) |}.

(** The [next] function a unit receives: calling it runs the rest of the
    pipeline and then returns to the caller. *)
Definition next_fn (rest : M unit) : M unit := fun w => rest (bump w).

(** Modelled from the spec: the default response of the express library
    when the sequence is exhausted, "the pipeline must emit a default
    not-found response"; the body is the one the README shows
    ([Cannot GET /]).  Nothing is written over a response already sent. *)
Definition not_found (req : request) : M unit :=
  fun w => if headersSent (sink w) then (Ok tt, w)
           else write_response 404
                  ("Cannot " ++ method_name (method req) ++ " " ++ path req) w.

(** Modelled from the spec: the default error response of the express
    library, "handler exception: caught by the pipeline, responds HTTP
    500, logged". *)
Definition internal_error (e : string) : M unit :=
  console_error e ;;
  (fun w => if headersSent (sink w) then (Ok tt, w)
            else write_response 500 "Internal Server Error" w).

(** Modelled from the spec: the dispatcher of the express library,
    "invokes them in order; each unit receives ... a continuation
    callback", with the exception policy of the edge-case paragraph: a
    unit that throws is caught where it was called. *)
Fixpoint run_units (us : list (slot * handler)) (req : request)
    (done : M unit) : M unit :=
  match us with
  | [] => done
  | (s, h) :: rest =>
      fun w => try_catch (h req (next_fn (run_units rest req done)))
                         internal_error (mark s w)
  end.

Definition dispatch (a : application) (req : request) : M unit :=
  run_units (effective a req) req (not_found req).

(** The HTTP server hands every request a response of its own. *)
Definition incoming (w : world) : world :=
  {| out := out w; err := err w; sink := fresh_response;
     invoked := []; nexts := 0 |}.

(** The world once the pipeline has returned for one request. *)
Definition handle (a : application) (req : request) (w : world) : world :=
  snd (dispatch a req (incoming w)).

(** What the client sees: a response, or a connection left open. *)
Inductive outcome :=
| Responded (status : nat) (b : string)
| Hung.

Definition outcome_of (w : world) : outcome :=
  if headersSent (sink w)
  then Responded (statusCode (sink w))
                 (match body (sink w) with Some b => b | None => "" end)
  else Hung.

Record server := mkServer {
  served : application;
  port : nat
}.

(** Modelled from the spec: [app.listen(port, callback)] of the express
    library on a free port: the server is bound and [callback] runs. *)
Definition listen (a : application) (p : nat) (callback : M unit)
    : M server :=
  callback ;; ret {| served := a; port := p |}.

(** Behaviour of a unit on a request, as the pipeline contract of the
    specification classifies it. *)

(** The continuation used to observe a unit on its own. *)
Definition probe : M unit := next_fn (ret tt).

(** Number of continuation calls the unit makes on [req] from [w]. *)
Definition next_calls (h : handler) (req : request) (w : world) : nat :=
  nexts (snd (h req probe w)) - nexts w.

(** Whether the unit has written the response on [req] from [w]. *)
Definition writes_response (h : handler) (req : request) (w : world) : bool :=
  headersSent (sink (snd (h req probe w))).

(** The invariant of the data model: the unit terminates the request or
    calls its continuation exactly once, and never twice. *)
Definition contract_ok (h : handler) (req : request) (w : world) : bool :=
  (writes_response h req w || Nat.eqb (next_calls h req w) 1)
  && Nat.leb (next_calls h req w) 1.

(** [h] logs [lines] and hands over to its continuation, nothing else. *)
Definition logs (lines : list string) (w : world) : world :=
  {| out := out w ++ lines; err := err w; sink := sink w;
     invoked := invoked w; nexts := nexts w |}.

Definition passes_on (req : request) (h : handler) : Prop :=
  exists lines, forall next w, h req next w = next (logs lines w).

(** [h] throws [e] before it has sent anything or called [next]. *)
Definition raises (req : request) (e : string) (h : handler) : Prop :=
  exists lines, forall next w, h req next w = (Exn e, logs lines w).

End Express.

Import Express.

(** ** [index.js] *)

(** [const myMiddleware = (req, res) => { console.log("Hello, from my middleware") }] *)
Definition myMiddleware (req res : value) : M value :=
  console_log "Hello, from my middleware" ;;
  ret undefined.

(** [(req, res) => { res.send("Hi") }] *)
Definition hi_handler (req res : value) : M value :=
  res_send res "Hi" ;;
  ret undefined.

(** [(req, res) => { res.send("Bye") }] *)
Definition bye_handler (req res : value) : M value :=
  res_send res "Bye" ;;
  ret undefined.

(** [const app = express(); app.get("/hi", ...); app.get("/bye", ...);] *)
Definition app : application :=
  let app := express in
  let app := get app "/hi" [] (arity2 hi_handler) in
  let app := get app "/bye" [] (arity2 bye_handler) in
  app.

(** [app.listen(3000, () => { console.log("Listening on port 3000") })] *)
Definition main : M server :=
  listen app 3000 (console_log "Listening on port 3000").

(** Requests used in the examples below. *)
Definition GET_ (p : string) : request :=
  {| method := GET; path := p; query := ""; headers := []; payload := "" |}.

(** The application the README arrives at by attaching the middleware of
    the file to every request: [app.use(myMiddleware)] before the routes. *)
Definition app_with_global : application :=
  let app := express in
  let app := use app (arity2 myMiddleware) in
  let app := get app "/hi" [] (arity2 hi_handler) in
  let app := get app "/bye" [] (arity2 bye_handler) in
  app.

(** The attachment of the README to one route:
    [app.get("/bye", myMiddleware, (req, res) => { res.send("Bye") })]. *)
Definition app_with_route_unit : application :=
  let app := express in
  let app := get app "/hi" [] (arity2 hi_handler) in
  let app := get app "/bye" [arity2 myMiddleware] (arity2 bye_handler) in
  app.

(** ** The variants the README documents *)

Module Readme.

(** "Custom Middleware", as the README quotes lines 5-7 of [index.js]:
    [(req, res, next) => { console.log("Hello, from my middleware"); next(); }] *)
Definition myMiddleware : handler :=
  fun _ next =>
    console_log "Hello, from my middleware" ;;
    next.

Definition to_string (v : value) : string :=
  match v with
  | undefined => "undefined"
  | str s => s
  | req_obj _ | res_obj _ => "[object Object]"
  end.

(** "Bonus: Customizable middleware", the factory of the last step:
    [(name = "World") => (req, res, next) => { console.log(`Hello, ${name}`); next(); }] *)
Definition customizable (name : value) : handler :=
  let name := match name with undefined => str "World" | v => v end in
  fun _ next =>
    console_log ("Hello, " ++ to_string name) ;;
    next.

(** The application at the end of the tutorial, without the logger of
    the morgan package. *)
Definition app : application :=
  let app := express in
  let app := use app myMiddleware in
  let app := get app "/hi" [customizable (str "Universe")] (arity2 hi_handler) in
  let app := get app "/bye" [customizable undefined] (arity2 bye_handler) in
  app.

End Readme.

(** A route whose only handler throws. *)
Definition app_with_throwing_route : application :=
  get app "/boom" [Readme.myMiddleware] (fun _ _ => throw "Error: boom").

(** A console line that greets [name]. *)
Definition greets (name : string) (w : world) : Prop :=
  exists line, In line (out w) /\ contains ("Hello, " ++ name) line = true.

(** ** [index.js] after the custom-middleware changes of the README

    Each application below is [index.js] with one of the README's changes
    to the custom middleware applied; the changes that attach the logger of
    the morgan package are left aside. *)

Module Tutorial.

(** "Global middleware": the added line [app.use(myMiddleware);], with the
    middleware as the README quotes it (it calls [next()]). *)
Definition global_step : application :=
  let app := express in
  let app := use app Readme.myMiddleware in
  let app := get app "/hi" [] (arity2 hi_handler) in
  let app := get app "/bye" [] (arity2 bye_handler) in
  app.

(** "Per-route middleware": the route of /bye becomes
    [app.get("/bye", myMiddleware, (req, res) => { res.send("Bye") })]. *)
Definition route_step : application :=
  let app := express in
  let app := get app "/hi" [] (arity2 hi_handler) in
  let app := get app "/bye" [Readme.myMiddleware] (arity2 bye_handler) in
  app.

(** "Bonus: Customizable middleware", both changes: /bye gets
    [myMiddleware()] and /hi gets [myMiddleware("Universe")]. *)
Definition final_step : application :=
  let app := express in
  let app := get app "/hi" [Readme.customizable (str "Universe")]
                 (arity2 hi_handler) in
  let app := get app "/bye" [Readme.customizable undefined]
                 (arity2 bye_handler) in
  app.

(** The line a unit made by the factory logs: the name, or "World" when
    the argument is [undefined]. *)
Definition greeting (name : value) : string :=
  "Hello, " ++ Readme.to_string
                 match name with undefined => str "World" | v => v end.

End Tutorial.

(** The requests of a list, served one after the other. *)
Definition serve (a : application) (reqs : list request) (w : world) : world :=
  fold_left (fun w r => handle a r w) reqs w.

(** [h] logs exactly [lines] and hands over to its continuation. *)
Definition passes_with (req : request) (lines : list string) (h : handler)
    : Prop :=
  forall next w, h req next w = next (logs lines w).

(** * Properties *)

(** ** The monad and the default responses *)

Lemma logs_nil (w : world) : logs [] w = w.
Proof. destruct w; unfold logs; simpl; now rewrite app_nil_r. Qed.

Lemma not_found_returns (req : request) (w : world) :
  fst (not_found req w) = Ok tt.
Proof.
  unfold not_found, write_response.
  destruct (headersSent (sink w)); reflexivity.
Qed.

Lemma internal_error_returns (e : string) (w : world) :
  fst (internal_error e w) = Ok tt.
Proof.
  unfold internal_error, bind, console_error, write_response; simpl.
  destruct (headersSent (sink w)); reflexivity.
Qed.

Lemma internal_error_fresh (e : string) (w : world) :
  headersSent (sink w) = false ->
  internal_error e w
  = (Ok tt, {| out := out w; err := err w ++ [e];
               sink := {| statusCode := 500; headersSent := true;
                          body := Some "Internal Server Error" |};
               invoked := invoked w; nexts := nexts w |}).
Proof.
  intros H. unfold internal_error, bind, console_error, write_response; simpl.
  now rewrite H.
Qed.

Lemma res_send_fresh (r : request) (b : string) (w : world) :
  headersSent (sink w) = false ->
  res_send (res_obj r) b w
  = (Ok tt, set_sink (sent r (statusCode (sink w)) b) w).
Proof. intros H. unfold res_send. now rewrite H. Qed.

(** ** The dispatcher *)

Section Dispatcher.

Variable req : request.
Variable done : M unit.
Hypothesis done_returns : forall w, fst (done w) = Ok tt.

(** The dispatcher itself never throws: every unit is called under a
    catch. *)
Lemma run_units_returns (us : list (slot * handler)) (w : world) :
  fst (run_units us req done w) = Ok tt.
Proof.
  destruct us as [|[s h] rest]; simpl.
  - apply done_returns.
  - unfold try_catch.
    destruct (h req (next_fn (run_units rest req done)) (mark s w))
      as [[[]|e] w'].
    + reflexivity.
    + apply internal_error_returns.
Qed.

(** Units that pass control on are run one after the other, each marked
    once, and leave the response untouched. *)
Lemma run_units_passes (pre rest : list (slot * handler)) :
  Forall (fun u => passes_on req (snd u)) pre ->
  forall w, exists w1,
    run_units (pre ++ rest) req done w = run_units rest req done w1
    /\ invoked w1 = (invoked w ++ map fst pre)%list
    /\ sink w1 = sink w
    /\ err w1 = err w
    /\ nexts w1 = nexts w + length pre.
Proof.
  induction 1 as [|[s h] pre [lines Hh] _ IH]; intros w.
  - exists w. simpl. rewrite app_nil_r, Nat.add_0_r. auto.
  - destruct (IH (bump (logs lines (mark s w)))) as (w1 & Hrun & Hi & Hs & He & Hn).
    exists w1. simpl in *. repeat split.
    + unfold try_catch. rewrite Hh. unfold next_fn. rewrite Hrun.
      pose proof (run_units_returns rest w1) as Hok.
      destruct (run_units rest req done w1) as [c w2]. simpl in Hok.
      now subst c.
    + rewrite Hi. now rewrite <- app_assoc.
    + exact Hs.
    + exact He.
    + rewrite Hn. lia.
Qed.

End Dispatcher.

Lemma tag_fst {A} (f : nat -> slot) (l : list A) :
  map fst (tag f l) = map f (seq 0 (length l)).
Proof.
  unfold tag. generalize 0 as k.
  induction l as [|x l IH]; intros k; simpl; [reflexivity|].
  now rewrite IH.
Qed.

(** ** The application of [index.js] *)

Lemma app_registrations :
  globals app = []
  /\ routes app = [mkRoute GET "/hi" [] (arity2 hi_handler);
                   mkRoute GET "/bye" [] (arity2 bye_handler)].
Proof. split; reflexivity. Qed.

Lemma app_route_found (req : request) :
  find (matches req) (routes app)
  = if method_eqb (method req) GET
    then if String.eqb (path req) "/hi"
         then Some (mkRoute GET "/hi" [] (arity2 hi_handler))
         else if String.eqb (path req) "/bye"
              then Some (mkRoute GET "/bye" [] (arity2 bye_handler))
              else None
    else None.
Proof.
  rewrite (proj2 app_registrations).
  cbn [find]. unfold matches. cbn [rmethod rpath].
  destruct (method_eqb (method req) GET);
    destruct (String.eqb (path req) "/hi");
    destruct (String.eqb (path req) "/bye"); reflexivity.
Qed.

(** A request that matches no route exhausts the (empty) sequence. *)
Lemma app_unregistered (req : request) (w : world) :
  find (matches req) (routes app) = None ->
  handle app req w
  = {| out := out w; err := err w;
       sink := {| statusCode := 404; headersSent := true;
                  body := Some ("Cannot " ++ method_name (method req)
                                  ++ " " ++ path req) |};
       invoked := []; nexts := 0 |}.
Proof.
  intros H. unfold handle, dispatch, effective. rewrite H. reflexivity.
Qed.

(** A request that matches a route runs the terminal handler only. *)
Lemma app_registered (req : request) (w : world) (b : string) :
  find (matches req) (routes app)
    = Some (mkRoute GET (path req) []
              (arity2 (fun _ res => res_send res b ;; ret undefined))) ->
  handle app req w
  = {| out := out w; err := err w;
       sink := sent req 200 b;
       invoked := [Terminal GET (path req)]; nexts := 0 |}.
Proof.
  intros H. unfold handle, dispatch, effective. rewrite H. reflexivity.
Qed.

Lemma app_hi (req : request) (w : world) :
  method req = GET -> path req = "/hi" ->
  handle app req w
  = {| out := out w; err := err w;
       sink := sent req 200 "Hi";
       invoked := [Terminal GET "/hi"]; nexts := 0 |}.
Proof.
  intros Hm Hp.
  rewrite (app_registered req w "Hi"); [now rewrite Hp|].
  now rewrite app_route_found, Hm, Hp.
Qed.

Lemma app_bye (req : request) (w : world) :
  method req = GET -> path req = "/bye" ->
  handle app req w
  = {| out := out w; err := err w;
       sink := sent req 200 "Bye";
       invoked := [Terminal GET "/bye"]; nexts := 0 |}.
Proof.
  intros Hm Hp.
  rewrite (app_registered req w "Bye"); [now rewrite Hp|].
  now rewrite app_route_found, Hm, Hp.
Qed.

Lemma method_eqb_GET (m : http_method) : method_eqb m GET = true -> m = GET.
Proof. destruct m; simpl; intros H; try discriminate H; reflexivity. Qed.

Lemma readme_middleware_passes (req : request) :
  passes_on req Readme.myMiddleware.
Proof. exists ["Hello, from my middleware"]. intros next w. reflexivity. Qed.

(** The factory of the README, for comparison with the function of
    [index.js]: without argument it greets "World", with one it greets
    that name. *)
Lemma readme_customizable_greets (req : request) (w : world) :
  out (snd (Readme.customizable undefined req (ret tt) w))
    = (out w ++ ["Hello, World"])%list
  /\ out (snd (Readme.customizable (str "Universe") req (ret tt) w))
    = (out w ++ ["Hello, Universe"])%list.
Proof. split; reflexivity. Qed.

(** [app.listen(3000, ...)]: the port is the literal 3000 and the callback
    logs one line once the server listens. *)
Lemma main_listens (w : world) :
  main w = (Ok {| served := app; port := 3000 |},
            logs ["Listening on port 3000"] w).
Proof. reflexivity. Qed.

(** ** Conditional requests *)

(** The digest of the standard test message, and the entity tags of the
    two bodies [index.js] sends. *)
Lemma sha1_abc :
  map N.to_nat (Sha1.digest "abc")
  = [169; 153; 62; 54; 71; 6; 129; 106; 186; 62;
     37; 113; 120; 80; 194; 108; 156; 208; 216; 157].
Proof. vm_compute. reflexivity. Qed.

Lemma wetag_of_bodies :
  wetag "Hi" = "W/" ++ quote ++ "2-lN2eCMEpx4X38lboL74KMObRrkA" ++ quote
  /\ wetag "Bye" = "W/" ++ quote ++ "3-95JCQGTQyhp9FO/gWI8QwFLSjmk" ++ quote.
Proof. split; vm_compute; reflexivity. Qed.

Lemma fresh_unconditional (r : request) (status : nat) (etag : string) :
  unconditional r = true -> fresh r status etag = false.
Proof.
  unfold unconditional, fresh, fresh_headers. intros ->.
  destruct (method r); try reflexivity;
    destruct ((Nat.leb 200 status && Nat.ltb status 300) || Nat.eqb status 304);
    reflexivity.
Qed.

(** Freshness looks at the method and at three headers only. *)
Lemma fresh_depends (r1 r2 : request) (status : nat) (etag : string) :
  method r1 = method r2 ->
  header_first r1 "if-modified-since" = header_first r2 "if-modified-since" ->
  header_joined r1 "if-none-match" = header_joined r2 "if-none-match" ->
  header_joined r1 "cache-control" = header_joined r2 "cache-control" ->
  fresh r1 status etag = fresh r2 status etag.
Proof.
  intros Hm Hs Hn Hc. unfold fresh, fresh_headers.
  now rewrite Hm, Hs, Hn, Hc.
Qed.

Lemma sent_GET (r : request) (b : string) :
  method r = GET ->
  sent r 200 b
  = if fresh r 200 (wetag b)
    then {| statusCode := 304; headersSent := true; body := Some "" |}
    else {| statusCode := 200; headersSent := true; body := Some b |}.
Proof.
  intros Hm. unfold sent. rewrite Hm.
  destruct (fresh r 200 (wetag b)); reflexivity.
Qed.

Lemma outcome_sent (r : request) (b : string) (w : world) :
  method r = GET -> sink w = sent r 200 b ->
  outcome_of w
  = if fresh r 200 (wetag b) then Responded 304 "" else Responded 200 b.
Proof.
  intros Hm Hs. unfold outcome_of. rewrite Hs, (sent_GET r b Hm).
  destruct (fresh r 200 (wetag b)); reflexivity.
Qed.

(** ** Units that log and pass control on *)

Section PassingPrefix.

Variable req : request.
Variable done : M unit.
Hypothesis done_returns : forall w, fst (done w) = Ok tt.

(** The world in which the rest of the pipeline starts, once a prefix of
    units that log and pass control on has run. *)
Lemma run_units_passes_with (pre rest : list (slot * handler))
    (liness : list (list string)) :
  Forall2 (fun u lines => passes_with req lines (snd u)) pre liness ->
  forall w,
    run_units (pre ++ rest) req done w
    = run_units rest req done
        {| out := out w ++ concat liness; err := err w; sink := sink w;
           invoked := invoked w ++ map fst pre;
           nexts := nexts w + length pre |}.
Proof.
  induction 1 as [|[s h] lines pre liness Hh _ IH]; intros w.
  - destruct w as [o e k i n]. simpl. now rewrite !app_nil_r, Nat.add_0_r.
  - simpl. unfold try_catch. rewrite Hh. unfold next_fn. rewrite IH.
    simpl. rewrite <- !app_assoc, <- plus_n_Sm. simpl.
    match goal with
    | |- context [run_units rest req done ?w1] =>
        pose proof (run_units_returns req done done_returns rest w1) as Hok;
        destruct (run_units rest req done w1) as [c w2]
    end.
    simpl in Hok. now subst c.
Qed.

End PassingPrefix.

Lemma passes_on_with (req : request) (us : list (slot * handler)) :
  Forall (fun u => passes_on req (snd u)) us ->
  exists liness, Forall2 (fun u lines => passes_with req lines (snd u)) us liness.
Proof.
  induction 1 as [|u us [lines Hu] _ [liness IH]].
  - exists []. constructor.
  - exists (lines :: liness). now constructor.
Qed.

Lemma tag_passes_with {req} (f : nat -> slot) (hs : list handler)
    (liness : list (list string)) :
  Forall2 (fun h lines => passes_with req lines h) hs liness ->
  Forall2 (fun u lines => passes_with req lines (snd u)) (tag f hs) liness.
Proof.
  intros H. unfold tag. generalize 0.
  induction H as [|h lines hs liness Hh _ IH]; intros k; simpl.
  - constructor.
  - constructor; [exact Hh | apply IH].
Qed.

Lemma use_all_registrations (gs : list handler) (a : application) :
  globals (fold_left use gs a) = (globals a ++ gs)%list
  /\ routes (fold_left use gs a) = routes a.
Proof.
  revert a. induction gs as [|g gs IH]; intros a; simpl.
  - now rewrite app_nil_r.
  - destruct (IH (use a g)) as [Hg Hr]. rewrite Hg, Hr. simpl.
    now rewrite <- app_assoc.
Qed.

Lemma use_all_app (gs : list handler) :
  fold_left use gs app = {| globals := gs; routes := routes app |}.
Proof.
  destruct (use_all_registrations gs app) as [Hg Hr].
  destruct (fold_left use gs app) as [g r]. simpl in *. now subst.
Qed.

Lemma tag_length {A} (f : nat -> slot) (l : list A) :
  length (tag f l) = length l.
Proof. now rewrite <- (length_map fst), tag_fst, length_map, length_seq. Qed.

Lemma concat_singletons {A B} (f : A -> B) (l : list A) :
  concat (map (fun x => [f x]) l) = map f l.
Proof. induction l as [|x l IH]; simpl; [reflexivity|now rewrite IH]. Qed.

(** The routes of [index.js] behind global units that log and pass
    control on: the units run first, in order, and the response is the
    one of [index.js]. *)
Lemma shipped_routes_behind (gs : list handler) (liness : list (list string))
    (req : request) (w : world) :
  Forall2 (fun h lines => passes_with req lines h) gs liness ->
  handle {| globals := gs; routes := routes app |} req w
  = {| out := out w ++ concat liness;
       err := err w;
       sink := sink (handle app req w);
       invoked := map GlobalUnit (seq 0 (length gs))
                    ++ invoked (handle app req w);
       nexts := length gs |}.
Proof.
  intros Hgs.
  unfold handle at 1. unfold dispatch, effective. cbn [globals routes].
  rewrite (run_units_passes_with req (not_found req) (not_found_returns req)
             _ _ liness (tag_passes_with GlobalUnit gs liness Hgs)).
  rewrite tag_fst, tag_length.
  unfold handle, dispatch, effective. rewrite app_route_found.
  destruct (method_eqb (method req) GET);
    destruct (String.eqb (path req) "/hi");
    destruct (String.eqb (path req) "/bye");
    simpl; rewrite ?app_nil_r; reflexivity.
Qed.


Lemma app_console (req : request) (w : world) :
  out (handle app req w) = out w /\ err (handle app req w) = err w.
Proof.
  unfold handle, dispatch, effective. rewrite app_route_found.
  destruct (method_eqb (method req) GET);
    destruct (String.eqb (path req) "/hi");
    destruct (String.eqb (path req) "/bye"); split; reflexivity.
Qed.

Lemma serve_app_console (reqs : list request) (w : world) :
  out (serve app reqs w) = out w /\ err (serve app reqs w) = err w.
Proof.
  revert w. induction reqs as [|r reqs IH]; intros w; simpl.
  - split; reflexivity.
  - destruct (IH (handle app r w)) as [Ho He].
    destruct (app_console r w) as [Ho' He'].
    split; congruence.
Qed.

(** ** The claims *)

(** C1, as written, fails for a conditional request: a GET request to /hi
    that carries [If-None-Match: *], or one to /bye that carries the entity
    tag of "Bye", is fresh for express and is answered 304 with an empty
    body, not 200 with the literal. *)
Lemma conditional_get_answered_304 :
  outcome_of
    (handle app {| method := GET; path := "/hi"; query := "";
                   headers := [("If-None-Match", "*")]; payload := "" |} boot)
  = Responded 304 ""
  /\ outcome_of
       (handle app {| method := GET; path := "/hi"; query := "";
                      headers := [("If-None-Match", "*")]; payload := "" |} boot)
     <> Responded 200 "Hi"
  /\ outcome_of
       (handle app {| method := GET; path := "/bye"; query := "";
                      headers := [("if-none-match",
                                   "W/" ++ quote ++ "3-95JCQGTQyhp9FO/gWI8QwFLSjmk"
                                        ++ quote)];
                      payload := "" |} boot)
     = Responded 304 "".
Proof.
  split; [vm_compute; reflexivity|].
  split; [vm_compute; discriminate|].
  vm_compute; reflexivity.
Qed.

(** C1, amended: the registered routes are GET /hi and GET /bye; a GET
    request to /hi is answered with status 200 and body "Hi", one to /bye
    with status 200 and body "Bye", unless express finds the request fresh
    (a conditional GET whose validators match), which it answers 304 with
    an empty body; a request without If-None-Match and If-Modified-Since
    headers always gets the 200 response. *)
Theorem registered_routes_respond (req : request) (w : world) :
  method req = GET ->
  map (fun rt => (rmethod rt, rpath rt)) (routes app)
    = [(GET, "/hi"); (GET, "/bye")]
  /\ (path req = "/hi" ->
      outcome_of (handle app req w)
      = if fresh req 200 (wetag "Hi")
        then Responded 304 "" else Responded 200 "Hi")
  /\ (path req = "/bye" ->
      outcome_of (handle app req w)
      = if fresh req 200 (wetag "Bye")
        then Responded 304 "" else Responded 200 "Bye")
  /\ (unconditional req = true ->
      (path req = "/hi" ->
       outcome_of (handle app req w) = Responded 200 "Hi")
      /\ (path req = "/bye" ->
          outcome_of (handle app req w) = Responded 200 "Bye")).
Proof.
  intros Hm. split; [reflexivity|].
  assert (Hhi : path req = "/hi" ->
                outcome_of (handle app req w)
                = if fresh req 200 (wetag "Hi")
                  then Responded 304 "" else Responded 200 "Hi").
  { intros Hp. apply outcome_sent; [exact Hm|]. now rewrite app_hi. }
  assert (Hbye : path req = "/bye" ->
                 outcome_of (handle app req w)
                 = if fresh req 200 (wetag "Bye")
                   then Responded 304 "" else Responded 200 "Bye").
  { intros Hp. apply outcome_sent; [exact Hm|]. now rewrite app_bye. }
  split; [exact Hhi|]. split; [exact Hbye|].
  intros Hu. split; intros Hp.
  - rewrite (Hhi Hp). now rewrite fresh_unconditional.
  - rewrite (Hbye Hp). now rewrite fresh_unconditional.
Qed.

Lemma registered_routes_respond_witness :
  method (GET_ "/hi") = GET
  /\ outcome_of (handle app (GET_ "/hi") boot) = Responded 200 "Hi"
  /\ outcome_of
       (handle app {| method := GET; path := "/bye"; query := "x=1";
                      headers := [("accept", "*/*")]; payload := "" |} boot)
     = Responded 200 "Bye".
Proof.
  split; [reflexivity|]. split.
  - apply (proj2 (proj2 (proj2 (registered_routes_respond
                                  (GET_ "/hi") boot eq_refl)))).
    + vm_compute; reflexivity.
    + reflexivity.
  - apply (proj2 (proj2 (proj2 (registered_routes_respond
                           {| method := GET; path := "/bye"; query := "x=1";
                              headers := [("accept", "*/*")]; payload := "" |}
                           boot eq_refl)))).
    + vm_compute; reflexivity.
    + reflexivity.
Defined.

(** C2, as written, fails on [index.js]: called without argument,
    [myMiddleware] returns [undefined] and the line it logs does not
    contain "Hello, World"; called with "Universe" it logs no line
    containing "Hello, Universe"; and GET /bye logs nothing. *)
Lemma myMiddleware_greets_nobody :
  fst (myMiddleware undefined undefined boot) = Ok undefined
  /\ ~ greets "World" (snd (myMiddleware undefined undefined boot))
  /\ ~ greets "Universe" (snd (myMiddleware (str "Universe") undefined boot))
  /\ ~ greets "World" (handle app (GET_ "/bye") boot).
Proof.
  split; [reflexivity|]. repeat split.
  - intros (line & [<-|[]] & H). discriminate H.
  - intros (line & [<-|[]] & H). discriminate H.
  - intros (line & [] & _).
Qed.

(** C2, amended: [myMiddleware] is a plain function, not a factory;
    whatever its first argument (none, or "Universe"), it logs the fixed
    line "Hello, from my middleware" and returns [undefined]; it is bound
    to no route: the application has no global unit, its routes have no
    unit besides their own handler, and no request logs anything; GET /bye
    answers 200 "Bye" (304 with an empty body when express finds the
    request fresh). *)
Theorem myMiddleware_fixed_line (arg : value) (req : request) (w : world) :
  myMiddleware arg undefined w
    = (Ok undefined, logs ["Hello, from my middleware"] w)
  /\ globals app = []
  /\ Forall (fun rt => runits rt = []) (routes app)
  /\ map rterminal (routes app) = [arity2 hi_handler; arity2 bye_handler]
  /\ out (handle app req w) = out w
  /\ (method req = GET -> path req = "/bye" ->
      outcome_of (handle app req w)
      = if fresh req 200 (wetag "Bye")
        then Responded 304 "" else Responded 200 "Bye")
  /\ (method req = GET -> path req = "/bye" -> unconditional req = true ->
      outcome_of (handle app req w) = Responded 200 "Bye").
Proof.
  split; [reflexivity|]. split; [reflexivity|].
  split; [repeat constructor|]. split; [reflexivity|].
  split; [apply app_console|].
  assert (Hbye : method req = GET -> path req = "/bye" ->
                 outcome_of (handle app req w)
                 = if fresh req 200 (wetag "Bye")
                   then Responded 304 "" else Responded 200 "Bye").
  { intros Hm Hp. apply outcome_sent; [exact Hm|]. now rewrite app_bye. }
  split; [exact Hbye|].
  intros Hm Hp Hu. rewrite (Hbye Hm Hp). now rewrite fresh_unconditional.
Qed.

Lemma myMiddleware_fixed_line_witness :
  myMiddleware (str "Universe") undefined boot
  = (Ok undefined, logs ["Hello, from my middleware"] boot)
  /\ out (handle app (GET_ "/bye") boot) = []
  /\ outcome_of (handle app (GET_ "/bye") boot) = Responded 200 "Bye".
Proof.
  pose proof (myMiddleware_fixed_line (str "Universe") (GET_ "/bye") boot)
    as (H1 & _ & _ & _ & H2 & _ & H3).
  split; [exact H1|]. split; [exact H2|].
  apply H3; [reflexivity | reflexivity | vm_compute; reflexivity].
Defined.

(** C3 fails on [myMiddleware]: on every request it neither writes a
    response nor calls its continuation, so a pipeline it is attached to
    (to /bye, or globally, as the README instructs) leaves the request
    hanging; the two route handlers, and the middleware as the README
    quotes it, do keep the contract. *)
Theorem myMiddleware_breaks_contract (r : request) (w : world) :
  contract_ok (arity2 myMiddleware) r (incoming w) = false
  /\ next_calls (arity2 myMiddleware) r (incoming w) = 0
  /\ writes_response (arity2 myMiddleware) r (incoming w) = false
  /\ outcome_of (handle app_with_route_unit (GET_ "/bye") w) = Hung
  /\ outcome_of (handle app_with_global r w) = Hung
  /\ contract_ok (arity2 hi_handler) r (incoming w) = true
  /\ contract_ok (arity2 bye_handler) r (incoming w) = true
  /\ contract_ok Readme.myMiddleware r (incoming w) = true.
Proof. repeat split; reflexivity. Qed.

(** C4: what a request causes is what the effective sequence causes, run
    in order: first every global unit, in registration order, then the
    units of the matched route, then its terminal handler; on a path
    without route the global units run and the default 404 follows.  For
    units that log and call their continuation, each unit's lines appear
    once, in that order, the continuation is called once per unit, and the
    response is the one the terminal handler sends.  For the application
    of [index.js], which registers no unit besides the route handlers,
    every request runs the handler of its route on the fresh response, or
    nothing but the default 404. *)
Theorem dispatch_runs_effective_sequence :
  (forall (a : application) (req : request) (w : world)
          (glines : list (list string)),
     Forall2 (fun h lines => passes_with req lines h) (globals a) glines ->
     match find (matches req) (routes a) with
     | Some rt =>
         forall (rlines : list (list string)) (tlines : list string)
                (b : string),
           Forall2 (fun h lines => passes_with req lines h) (runits rt) rlines ->
           (forall next w',
              rterminal rt req next w'
              = res_send (res_obj req) b (logs tlines w')) ->
           handle a req w
           = {| out := out w ++ concat glines ++ concat rlines ++ tlines;
                err := err w;
                sink := sent req 200 b;
                invoked :=
                  map GlobalUnit (seq 0 (length (globals a)))
                    ++ map (RouteUnit (rmethod rt) (rpath rt))
                           (seq 0 (length (runits rt)))
                    ++ [Terminal (rmethod rt) (rpath rt)];
                nexts := length (globals a) + length (runits rt) |}
     | None =>
         handle a req w
         = {| out := out w ++ concat glines;
              err := err w;
              sink := {| statusCode := 404; headersSent := true;
                         body := Some ("Cannot " ++ method_name (method req)
                                         ++ " " ++ path req) |};
              invoked := map GlobalUnit (seq 0 (length (globals a)));
              nexts := length (globals a) |}
     end)
  /\ (forall (req : request) (w : world),
        handle app req w
        = match find (matches req) (routes app) with
          | Some rt =>
              snd (rterminal rt req probe
                     (mark (Terminal (rmethod rt) (rpath rt)) (incoming w)))
          | None => snd (not_found req (incoming w))
          end).
Proof.
  split.
  - intros a req w glines Hg.
    destruct (find (matches req) (routes a)) as [rt|] eqn:Hfind.
    + intros rlines tlines b Hr Ht.
      unfold handle, dispatch, effective. rewrite Hfind.
      unfold route_sequence. rewrite app_assoc.
      rewrite (run_units_passes_with req (not_found req) (not_found_returns req)
                 _ _ (glines ++ rlines)
                 (Forall2_app (tag_passes_with GlobalUnit _ _ Hg)
                    (tag_passes_with (RouteUnit (rmethod rt) (rpath rt)) _ _ Hr))).
      simpl run_units. unfold try_catch. rewrite Ht.
      rewrite res_send_fresh by reflexivity.
      rewrite map_app, !tag_fst, length_app, !tag_length, concat_app.
      unfold set_sink, logs, mark. simpl. now rewrite <- !app_assoc.
    + unfold handle, dispatch, effective. rewrite Hfind, app_nil_r.
      rewrite <- (app_nil_r (tag GlobalUnit (globals a))).
      rewrite (run_units_passes_with req (not_found req) (not_found_returns req)
                 _ [] glines (tag_passes_with GlobalUnit _ _ Hg)).
      rewrite tag_fst, tag_length. reflexivity.
  - intros req w. unfold handle, dispatch, effective.
    rewrite app_route_found.
    destruct (method_eqb (method req) GET);
      destruct (String.eqb (path req) "/hi");
      destruct (String.eqb (path req) "/bye"); reflexivity.
Qed.

Lemma dispatch_runs_effective_sequence_witness :
  handle Readme.app (GET_ "/hi") boot
  = {| out := ["Hello, from my middleware"; "Hello, Universe"];
       err := [];
       sink := {| statusCode := 200; headersSent := true; body := Some "Hi" |};
       invoked := [GlobalUnit 0; RouteUnit GET "/hi" 0; Terminal GET "/hi"];
       nexts := 2 |}
  /\ handle Readme.app (GET_ "/nope") boot
     = {| out := ["Hello, from my middleware"];
          err := [];
          sink := {| statusCode := 404; headersSent := true;
                     body := Some "Cannot GET /nope" |};
          invoked := [GlobalUnit 0];
          nexts := 1 |}.
Proof.
  assert (Hg : forall req,
             Forall2 (fun h lines => passes_with req lines h)
               (globals Readme.app) [["Hello, from my middleware"]]).
  { intros req. constructor; [|constructor]. intros next w. reflexivity. }
  split.
  - pose proof (proj1 dispatch_runs_effective_sequence
                  Readme.app (GET_ "/hi") boot _ (Hg _)) as H.
    change (find (matches (GET_ "/hi")) (routes Readme.app))
      with (Some (mkRoute GET "/hi" [Readme.customizable (str "Universe")]
                          (arity2 hi_handler))) in H.
    rewrite (H [["Hello, Universe"]] [] "Hi").
    + vm_compute. reflexivity.
    + constructor; [|constructor]. intros next w. reflexivity.
    + intros next w. rewrite logs_nil.
      unfold rterminal, arity2, hi_handler, bind, res_send, ret.
      destruct (headersSent (sink w)); reflexivity.
  - pose proof (proj1 dispatch_runs_effective_sequence
                  Readme.app (GET_ "/nope") boot _ (Hg _)) as H.
    change (find (matches (GET_ "/nope")) (routes Readme.app))
      with (@None route) in H.
    rewrite H. reflexivity.
Defined.

(** C5: a request whose path is neither /hi nor /bye, whatever its method,
    finds no route: no unit runs and the default response of the exhausted
    sequence, status 404, is sent. *)
Theorem unregistered_path_not_found (req : request) (w : world) :
  path req <> "/hi" -> path req <> "/bye" ->
  outcome_of (handle app req w)
  = Responded 404 ("Cannot " ++ method_name (method req) ++ " " ++ path req)
  /\ invoked (handle app req w) = [].
Proof.
  intros Hhi Hbye.
  rewrite app_unregistered; [split; reflexivity|].
  rewrite app_route_found.
  apply String.eqb_neq in Hhi, Hbye. rewrite Hhi, Hbye.
  now destruct (method_eqb (method req) GET).
Qed.

Lemma unregistered_path_not_found_witness :
  outcome_of (handle app (GET_ "/nope") boot) = Responded 404 "Cannot GET /nope"
  /\ invoked (handle app (GET_ "/nope") boot) = [].
Proof.
  apply (unregistered_path_not_found (GET_ "/nope") boot);
    simpl; intros H; discriminate H.
Defined.

(** C6: when the units reached before it pass control on and a unit throws
    before sending anything or calling its continuation, the dispatcher
    catches the exception, logs it to the error console and answers 500:
    the request is not left hanging. *)
Theorem thrown_exception_answered_500
    (a : application) (req : request) (w : world)
    (pre post : list (slot * handler)) (s : slot) (h : handler) (e : string) :
  effective a req = (pre ++ (s, h) :: post)%list ->
  Forall (fun u => passes_on req (snd u)) pre ->
  raises req e h ->
  outcome_of (handle a req w) = Responded 500 "Internal Server Error"
  /\ In e (err (handle a req w))
  /\ outcome_of (handle a req w) <> Hung.
Proof.
  intros Heff Hpre (lines & Hh).
  unfold handle, dispatch. rewrite Heff.
  destruct (run_units_passes req (not_found req) (not_found_returns req)
              pre ((s, h) :: post) Hpre (incoming w))
    as (w1 & Hrun & _ & Hs & _).
  rewrite Hrun. simpl run_units. unfold try_catch. rewrite Hh.
  rewrite internal_error_fresh by (simpl; now rewrite Hs).
  unfold outcome_of. simpl. repeat split.
  - apply in_or_app. right. now left.
  - discriminate.
Qed.

Lemma thrown_exception_answered_500_witness :
  outcome_of (handle app_with_throwing_route (GET_ "/boom") boot)
  = Responded 500 "Internal Server Error"
  /\ In "Error: boom" (err (handle app_with_throwing_route (GET_ "/boom") boot)).
Proof.
  destruct (thrown_exception_answered_500
              app_with_throwing_route (GET_ "/boom") boot
              [(RouteUnit GET "/boom" 0, Readme.myMiddleware)] []
              (Terminal GET "/boom") (fun _ _ => throw "Error: boom")
              "Error: boom" eq_refl)
    as (H1 & H2 & _).
  - repeat constructor. apply readme_middleware_passes.
  - exists []. intros next w. now rewrite logs_nil.
  - split; assumption.
Defined.

(** C8: [myMiddleware] is a function of [(req, res)]; whatever it is
    called with, it logs "Hello, from my middleware" and returns
    [undefined]; called by the router it ignores the continuation, calls
    it zero times and leaves the response as it was. *)
Theorem myMiddleware_only_logs
    (req res : value) (r : request) (next : M unit) (w : world) :
  myMiddleware req res w
    = (Ok undefined, logs ["Hello, from my middleware"] w)
  /\ arity2 myMiddleware r next w
    = (Ok tt, logs ["Hello, from my middleware"] w)
  /\ next_calls (arity2 myMiddleware) r w = 0
  /\ sink (snd (arity2 myMiddleware r next w)) = sink w
  /\ nexts (snd (arity2 myMiddleware r next w)) = nexts w.
Proof.
  repeat split. unfold next_calls. simpl. apply Nat.sub_diag.
Qed.

(** C9: the application has no global unit and no route-specific unit;
    every request either matches GET /hi or GET /bye and runs that route's
    terminal handler only, or runs nothing and gets the default 404; in
    both cases nothing is logged. *)
Theorem no_middleware_registered :
  globals app = []
  /\ Forall (fun rt => runits rt = []) (routes app)
  /\ forall (req : request) (w : world),
       out (handle app req w) = out w
       /\ err (handle app req w) = err w
       /\ ((method req = GET /\ (path req = "/hi" \/ path req = "/bye")
            /\ invoked (handle app req w) = [Terminal GET (path req)])
           \/ (invoked (handle app req w) = []
               /\ statusCode (sink (handle app req w)) = 404)).
Proof.
  split; [reflexivity|]. split; [repeat constructor|].
  intros req w.
  pose proof (app_route_found req) as Hf.
  destruct (method_eqb (method req) GET) eqn:Hm.
  - apply method_eqb_GET in Hm.
    destruct (String.eqb (path req) "/hi") eqn:Hhi.
    { apply String.eqb_eq in Hhi. rewrite (app_hi req w Hm Hhi), Hhi.
      simpl. auto 10. }
    destruct (String.eqb (path req) "/bye") eqn:Hbye.
    { apply String.eqb_eq in Hbye. rewrite (app_bye req w Hm Hbye), Hbye.
      simpl. auto 10. }
    rewrite (app_unregistered req w Hf). simpl. auto 10.
  - rewrite (app_unregistered req w Hf). simpl. auto 10.
Qed.

(** C10, as written, fails: two GET requests to /hi that differ in one
    header get different responses, 200 "Hi" for the plain one and 304
    with an empty body for the one that carries [If-None-Match: *]. *)
Lemma conditional_header_changes_response :
  outcome_of (handle app (GET_ "/hi") boot) = Responded 200 "Hi"
  /\ outcome_of
       (handle app {| method := GET; path := "/hi"; query := "";
                      headers := [("if-none-match", "*")]; payload := "" |}
               boot)
     = Responded 304 ""
  /\ sink (handle app (GET_ "/hi") boot)
     <> sink (handle app {| method := GET; path := "/hi"; query := "";
                            headers := [("if-none-match", "*")];
                            payload := "" |}
                     boot).
Proof.
  split; [vm_compute; reflexivity|].
  split; [vm_compute; reflexivity|].
  vm_compute. discriminate.
Qed.

(** C10, amended: the handlers of /hi and /bye never read the request they
    are given; the response to a GET request to one of these paths depends
    on the request only through the freshness check express makes when the
    body is sent, that is through the If-None-Match, If-Modified-Since and
    Cache-Control headers: two requests to the same path that agree on
    these three get the same response (status, body), whatever their
    other headers, query and payload and whatever happened before; two
    requests without validators always do. *)
Theorem route_response_constant (r1 r2 : request) (w1 w2 : world) :
  method r1 = GET -> method r2 = GET ->
  path r1 = path r2 ->
  path r1 = "/hi" \/ path r1 = "/bye" ->
  (header_first r1 "if-modified-since" = header_first r2 "if-modified-since" ->
   header_joined r1 "if-none-match" = header_joined r2 "if-none-match" ->
   header_joined r1 "cache-control" = header_joined r2 "cache-control" ->
   sink (handle app r1 w1) = sink (handle app r2 w2)
   /\ outcome_of (handle app r1 w1) = outcome_of (handle app r2 w2))
  /\ (unconditional r1 = true -> unconditional r2 = true ->
      sink (handle app r1 w1) = sink (handle app r2 w2))
  /\ (forall (v1 v2 res : value) (w : world),
        hi_handler v1 res w = hi_handler v2 res w
        /\ bye_handler v1 res w = bye_handler v2 res w).
Proof.
  intros Hm1 Hm2 Hp Hroute.
  assert (Hsink : forall b,
             sink (handle app r1 w1) = sent r1 200 b ->
             sink (handle app r2 w2) = sent r2 200 b ->
             fresh r1 200 (wetag b) = fresh r2 200 (wetag b) ->
             sink (handle app r1 w1) = sink (handle app r2 w2)).
  { intros b H1 H2 Hf.
    now rewrite H1, H2, (sent_GET r1 b Hm1), (sent_GET r2 b Hm2), Hf. }
  assert (Hb : exists b,
             sink (handle app r1 w1) = sent r1 200 b
             /\ sink (handle app r2 w2) = sent r2 200 b).
  { destruct Hroute as [Hhi|Hbye].
    - exists "Hi". rewrite (app_hi r1 w1 Hm1 Hhi), (app_hi r2 w2 Hm2) by congruence.
      split; reflexivity.
    - exists "Bye".
      rewrite (app_bye r1 w1 Hm1 Hbye), (app_bye r2 w2 Hm2) by congruence.
      split; reflexivity. }
  destruct Hb as (b & H1 & H2).
  split; [|split].
  - intros Hs Hn Hc.
    assert (Hsame : sink (handle app r1 w1) = sink (handle app r2 w2)).
    { apply (Hsink b H1 H2), fresh_depends; congruence. }
    split; [exact Hsame|]. unfold outcome_of. now rewrite Hsame.
  - intros Hu1 Hu2. apply (Hsink b H1 H2).
    now rewrite !fresh_unconditional.
  - intros v1 v2 res w. split; reflexivity.
Qed.

Lemma route_response_constant_witness :
  sink (handle app (GET_ "/hi") boot)
  = sink (handle app
            {| method := GET; path := "/hi"; query := "name=Universe";
               headers := [("authorization", "Bearer t")];
               payload := "ignored" |}
            (snd (console_log "earlier" boot)))
  /\ sink (handle app
             {| method := GET; path := "/bye"; query := "";
                headers := [("If-None-Match", "*"); ("accept", "text/html")];
                payload := "" |} boot)
     = sink (handle app
               {| method := GET; path := "/bye"; query := "a=b";
                  headers := [("user-agent", "curl"); ("if-none-match", "*")];
                  payload := "x" |} boot).
Proof.
  split.
  - apply (proj1 (proj2 (route_response_constant
             (GET_ "/hi")
             {| method := GET; path := "/hi"; query := "name=Universe";
                headers := [("authorization", "Bearer t")];
                payload := "ignored" |}
             boot (snd (console_log "earlier" boot))
             eq_refl eq_refl eq_refl (or_introl eq_refl))));
      vm_compute; reflexivity.
  - apply (proj1 (route_response_constant
             {| method := GET; path := "/bye"; query := "";
                headers := [("If-None-Match", "*"); ("accept", "text/html")];
                payload := "" |}
             {| method := GET; path := "/bye"; query := "a=b";
                headers := [("user-agent", "curl"); ("if-none-match", "*")];
                payload := "x" |}
             boot boot eq_refl eq_refl eq_refl (or_intror eq_refl)));
      vm_compute; reflexivity.
Defined.

(** ** Beyond the claims: how the code of [index.js] composes *)

(** X1: [app.get] binds the GET method only: a POST, PUT, DELETE or PATCH
    request, also one to /hi or /bye, runs no handler and gets the default
    404 naming its method and path.  (HEAD and OPTIONS are left out:
    express serves them in ways of its own.) *)
Theorem other_methods_not_served (req : request) (w : world) :
  In (method req) [POST; PUT; DELETE; PATCH] ->
  handle app req w
  = {| out := out w; err := err w;
       sink := {| statusCode := 404; headersSent := true;
                  body := Some ("Cannot " ++ method_name (method req)
                                  ++ " " ++ path req) |};
       invoked := []; nexts := 0 |}.
Proof.
  intros Hm. apply app_unregistered. rewrite app_route_found.
  destruct (method req); simpl in Hm; try reflexivity;
    exfalso; intuition discriminate.
Qed.

Lemma other_methods_not_served_witness :
  outcome_of (handle app {| method := POST; path := "/hi"; query := "";
                            headers := []; payload := "Hi" |} boot)
  = Responded 404 "Cannot POST /hi".
Proof.
  rewrite (other_methods_not_served
             {| method := POST; path := "/hi"; query := "";
                headers := []; payload := "Hi" |} boot).
  - reflexivity.
  - simpl. left. reflexivity.
Defined.


(** X3: after startup the console shows the line of the [listen] callback and
    nothing else, however many requests are served: no route logs. *)
Theorem console_shows_startup_line_only (reqs : list request) (w : world) :
  out (serve app reqs (snd (main w))) = (out w ++ ["Listening on port 3000"])%list
  /\ err (serve app reqs (snd (main w))) = err w.
Proof.
  destruct (serve_app_console reqs (snd (main w))) as [Ho He].
  rewrite Ho, He. split; reflexivity.
Qed.

(** X4: the route handlers write once: on a response already sent, whatever
    they are given as [req] and [res], they throw and leave the response,
    the console and the continuation count as they were. *)
Theorem route_handlers_write_once (req res : value) (w : world) :
  headersSent (sink w) = true ->
  (exists e, hi_handler req res w = (Exn e, w))
  /\ (exists e, bye_handler req res w = (Exn e, w)).
Proof.
  intros Hs. unfold hi_handler, bye_handler, bind, res_send.
  destruct res; unfold throw; try rewrite Hs; split; eexists; reflexivity.
Qed.

Lemma route_handlers_write_once_witness :
  exists e,
    hi_handler (req_obj (GET_ "/hi")) (res_obj (GET_ "/hi"))
      (handle app (GET_ "/bye") boot)
    = (Exn e, handle app (GET_ "/bye") boot).
Proof.
  apply (route_handlers_write_once (req_obj (GET_ "/hi"))
           (res_obj (GET_ "/hi")) (handle app (GET_ "/bye") boot)).
  reflexivity.
Defined.

(** X5: [myMiddleware] as [index.js] defines it ends every pipeline it is
    part of: once the units before it have passed control on, it logs its
    line, and then no unit after it is started, the continuation is not
    called again and the request is left without a response. *)
Theorem myMiddleware_stops_pipeline
    (a : application) (req : request) (w : world)
    (pre post : list (slot * handler)) (s : slot) :
  effective a req = (pre ++ (s, arity2 myMiddleware) :: post)%list ->
  Forall (fun u => passes_on req (snd u)) pre ->
  outcome_of (handle a req w) = Hung
  /\ invoked (handle a req w) = (map fst pre ++ [s])%list
  /\ nexts (handle a req w) = length pre
  /\ err (handle a req w) = err w
  /\ exists earlier,
       out (handle a req w)
       = (out w ++ earlier ++ ["Hello, from my middleware"])%list.
Proof.
  intros Heff Hpre.
  destruct (passes_on_with req pre Hpre) as [liness Hwith].
  unfold handle, dispatch. rewrite Heff.
  rewrite (run_units_passes_with req (not_found req) (not_found_returns req)
             pre _ liness Hwith).
  simpl. repeat split.
  exists (concat liness). now rewrite <- app_assoc.
Qed.

Lemma myMiddleware_stops_pipeline_witness :
  outcome_of
    (handle (get (use express Readme.myMiddleware) "/bye"
                 [arity2 myMiddleware] (arity2 bye_handler))
            (GET_ "/bye") boot) = Hung
  /\ invoked
       (handle (get (use express Readme.myMiddleware) "/bye"
                    [arity2 myMiddleware] (arity2 bye_handler))
               (GET_ "/bye") boot)
     = [GlobalUnit 0; RouteUnit GET "/bye" 0].
Proof.
  destruct (myMiddleware_stops_pipeline
              (get (use express Readme.myMiddleware) "/bye"
                   [arity2 myMiddleware] (arity2 bye_handler))
              (GET_ "/bye") boot
              [(GlobalUnit 0, Readme.myMiddleware)]
              [(Terminal GET "/bye", arity2 bye_handler)]
              (RouteUnit GET "/bye" 0) eq_refl)
    as (H1 & H2 & _).
  - repeat constructor. apply readme_middleware_passes.
  - split; assumption.
Defined.

(** X6: global units that only log and call their continuation are
    invisible to the client of [index.js]: with any number of them
    registered through [app.use], every request gets the response it gets
    without them, after each unit has logged its lines once, in
    registration order, and called its continuation once. *)
Theorem passing_globals_keep_responses
    (gs : list handler) (liness : list (list string))
    (req : request) (w : world) :
  Forall2 (fun h lines => passes_with req lines h) gs liness ->
  handle (fold_left use gs app) req w
  = {| out := out w ++ concat liness;
       err := err w;
       sink := sink (handle app req w);
       invoked := map GlobalUnit (seq 0 (length gs))
                    ++ invoked (handle app req w);
       nexts := length gs |}.
Proof.
  intros Hgs. rewrite use_all_app. now apply shipped_routes_behind.
Qed.

Lemma passing_globals_keep_responses_witness :
  handle (fold_left use [Readme.myMiddleware;
                         Readme.customizable (str "Universe")] app)
         (GET_ "/nope") boot
  = {| out := ["Hello, from my middleware"; "Hello, Universe"];
       err := [];
       sink := sink (handle app (GET_ "/nope") boot);
       invoked := [GlobalUnit 0; GlobalUnit 1];
       nexts := 2 |}.
Proof.
  apply (passing_globals_keep_responses
           [Readme.myMiddleware; Readme.customizable (str "Universe")]
           [["Hello, from my middleware"]; ["Hello, Universe"]]
           (GET_ "/nope") boot).
  constructor; [|constructor; [|constructor]];
    intros next w; reflexivity.
Defined.

(** X7: units made by the README's factory and registered through [app.use]
    greet in registration order, one line each ("World" for a missing
    name), on every request, and leave the responses of [index.js] as
    they are. *)
Theorem factory_units_greet_in_order
    (names : list value) (req : request) (w : world) :
  out (handle (fold_left use (map Readme.customizable names) app) req w)
    = (out w ++ map Tutorial.greeting names)%list
  /\ sink (handle (fold_left use (map Readme.customizable names) app) req w)
     = sink (handle app req w)
  /\ nexts (handle (fold_left use (map Readme.customizable names) app) req w)
     = length names.
Proof.
  rewrite use_all_app.
  rewrite (shipped_routes_behind _
             (map (fun n => [Tutorial.greeting n]) names) req w).
  - simpl. rewrite concat_singletons, length_map. repeat split.
  - induction names as [|n names IH]; simpl; constructor; [|exact IH].
    intros next w'. reflexivity.
Qed.

(** X8: "Global middleware" step of the README: with the middleware it quotes
    attached through [app.use], every request, also one to a path without
    route, logs the line once and gets the response of [index.js]. *)
Theorem global_step_logs_every_request (req : request) (w : world) :
  out (handle Tutorial.global_step req w)
    = (out w ++ ["Hello, from my middleware"])%list
  /\ sink (handle Tutorial.global_step req w) = sink (handle app req w)
  /\ invoked (handle Tutorial.global_step req w)
     = GlobalUnit 0 :: invoked (handle app req w).
Proof.
  change Tutorial.global_step
    with {| globals := [Readme.myMiddleware]; routes := routes app |}.
  rewrite (shipped_routes_behind [Readme.myMiddleware]
             [["Hello, from my middleware"]] req w).
  - repeat split.
  - constructor; [|constructor]. intros next w'. reflexivity.
Qed.

(** X9: "Per-route middleware" step of the README: the line is logged for GET
    /bye and for no other request, and every response is the one of
    [index.js]. *)
Theorem route_step_logs_bye_only (req : request) (w : world) :
  out (handle Tutorial.route_step req w)
    = (out w ++ if method_eqb (method req) GET && String.eqb (path req) "/bye"
                then ["Hello, from my middleware"] else [])%list
  /\ sink (handle Tutorial.route_step req w) = sink (handle app req w).
Proof.
  unfold handle, dispatch, effective. rewrite app_route_found.
  change (routes Tutorial.route_step)
    with [mkRoute GET "/hi" [] (arity2 hi_handler);
          mkRoute GET "/bye" [Readme.myMiddleware] (arity2 bye_handler)].
  cbn [find]. unfold matches. cbn [rmethod rpath].
  destruct (method_eqb (method req) GET);
    destruct (String.eqb (path req) "/hi") eqn:Hhi;
    destruct (String.eqb (path req) "/bye") eqn:Hbye;
    simpl; rewrite ?app_nil_r; try (split; reflexivity).
  apply String.eqb_eq in Hhi, Hbye. rewrite Hhi in Hbye. discriminate Hbye.
Qed.

(** X10: last step of the README: GET /hi logs "Hello, Universe", GET /bye logs
    "Hello, World" (the default name), any other request logs nothing, and
    every response is the one of [index.js]. *)
Theorem final_step_greets_by_route (req : request) (w : world) :
  out (handle Tutorial.final_step req w)
    = (out w ++ if method_eqb (method req) GET
                then if String.eqb (path req) "/hi" then ["Hello, Universe"]
                     else if String.eqb (path req) "/bye" then ["Hello, World"]
                          else []
                else [])%list
  /\ sink (handle Tutorial.final_step req w) = sink (handle app req w).
Proof.
  unfold handle, dispatch, effective. rewrite app_route_found.
  change (routes Tutorial.final_step)
    with [mkRoute GET "/hi" [Readme.customizable (str "Universe")]
                  (arity2 hi_handler);
          mkRoute GET "/bye" [Readme.customizable undefined]
                  (arity2 bye_handler)].
  cbn [find]. unfold matches. cbn [rmethod rpath].
  destruct (method_eqb (method req) GET);
    destruct (String.eqb (path req) "/hi");
    destruct (String.eqb (path req) "/bye");
    simpl; rewrite ?app_nil_r; split; reflexivity.
Qed.
